(** * Tactical Scanner: the projectile trajectory endpoint

    A shallow embedding of [get_trajectory] from [app/main.py] and the
    properties its specification states about it.

    Numbers.  The endpoint computes on Python floats.  The specification
    speaks of them as real numbers ("may be any real number supplied by
    caller"), and so does this development: a float is read as the real it
    denotes, [math.asin], [math.sin], [math.cos] are the functions of the
    Standard Library's [Reals], and the constant [9.81] is the rational
    981/100.  Binary rounding error, overflow of [v**2], signed zeros, NaN
    and infinities are outside this reading.

    Exceptions.  Python raises; here every operation that can raise returns
    a [result], and the endpoint is written in the exception monad, in the
    order in which the source evaluates. *)

From Stdlib Require Import String Reals Lra Lia ZArith Zfloor List Sorted.
Import ListNotations.
Open Scope R_scope.

(** ** Exceptions *)

Inductive exn : Type :=
| HTTPException (status_code : Z) (detail : string)
| ZeroDivisionError
| ValueError.

Inductive result (A : Type) : Type :=
| Return (a : A)
| Raise (e : exn).

Arguments Return {A} a.
Arguments Raise {A} e.

Definition bind {A B : Type} (m : result A) (k : A -> result B) : result B :=
  match m with
  | Return a => k a
  | Raise e => Raise e
  end.

Notation "x <- m ;; k" := (bind m (fun x => k))
  (at level 61, m at next level, right associativity).

(** ** The Python operations the endpoint uses *)

Module Py.

(** [a / b] on floats: [ZeroDivisionError] when the divisor is zero. *)
Definition truediv (a b : R) : result R :=
  if Req_dec_T b 0 then Raise ZeroDivisionError else Return (a / b).

(** [math.asin]: [ValueError] (math domain error) outside [-1, 1]. *)
Definition asin (x : R) : result R :=
  if Rle_dec (-1) x then
    if Rle_dec x 1 then Return (Ratan.asin x) else Raise ValueError
  else Raise ValueError.

(** [math.degrees]. *)
Definition degrees (x : R) : R := x * (180 / PI).

(** Nearest integer, ties to the even one: the rounding rule of [round]. *)
Definition round_half_even (r : R) : Z :=
  let f := Zfloor r in
  if Rlt_dec (r - IZR f) (1 / 2) then f
  else if Rlt_dec (1 / 2) (r - IZR f) then (f + 1)%Z
  else if Z.even f then f else (f + 1)%Z.

(** [round(x, ndigits)] for a non-negative [ndigits]. *)
Definition round (x : R) (ndigits : nat) : R :=
  IZR (round_half_even (x * 10 ^ ndigits)) / 10 ^ ndigits.

End Py.

Module Np.

(** [np.linspace(start, stop, num)] with the default [endpoint=True]:
    [num] samples [start + i * step], [step = (stop - start) / (num - 1)]. *)
Definition linspace (start stop : R) (num : nat) : list R :=
  let step := (stop - start) / INR (num - 1) in
  map (fun i => start + INR i * step) (seq 0 num).

End Np.

(** ** The request and the response *)

Record TrajectoryInput : Type := {
  target_distance : R;
  velocity : R
}.

(** A path entry, the dictionary [{"x": ..., "y": ...}]. *)
Record PathPoint : Type := { x : R; y : R }.

(** The returned dictionary. *)
Record TrajectorySolution : Type := {
  path : list PathPoint;
  calculated_angle : R;
  time_of_flight : R
}.

(** ** [get_trajectory] *)

Definition g : R := 981 / 100.

Definition out_of_range : string :=
  "Target is out of range for the given velocity.".

(** One iteration of the [for t in np.linspace(...)] loop: the state is the
    list [path_points]. *)
Definition loop_body (v angle_rad : R) (path_points : list PathPoint) (t : R)
  : list PathPoint :=
  let x := v * cos angle_rad * t in
  let y := v * sin angle_rad * t - (1 / 2) * g * t ^ 2 in
  if Rle_dec 0 y
  then path_points ++ [ {| x := Py.round x 2; y := Py.round y 2 |} ]
  else path_points.

(** The chained comparison [lo <= a <= hi]. *)
Definition between (lo a hi : R) : bool :=
  if Rle_dec lo a then if Rle_dec a hi then true else false else false.

Definition get_trajectory (data : TrajectoryInput) : result TrajectorySolution :=
  let v := velocity data in
  let d := target_distance data in
  val <- Py.truediv (g * d) (v ^ 2) ;;
  _ <- (if negb (between (-1) val 1)
        then Raise (HTTPException 400 out_of_range)
        else Return tt) ;;
  a <- Py.asin val ;;
  let angle_rad := (1 / 2) * a in
  let launch_angle_deg := Py.degrees angle_rad in
  time_of_flight <- Py.truediv (2 * v * sin angle_rad) g ;;
  let path_points :=
    fold_left (loop_body v angle_rad) (Np.linspace 0 time_of_flight 50) [] in
  Return {| path := path_points;
            calculated_angle := Py.round launch_angle_deg 2;
            time_of_flight := Py.round time_of_flight 2 |}.

(** The specification's name for the operation. *)
Definition solve (d v : R) : result TrajectorySolution :=
  get_trajectory {| target_distance := d; velocity := v |}.

(** ** The quantities of the specification *)

(** [val = (g * d) / v^2], the argument of the arcsine. *)
Definition val (d v : R) : R := g * d / v ^ 2.

(** The launch angle in radians, [0.5 * arcsin(val)]. *)
Definition angle (d v : R) : R := 1 / 2 * Ratan.asin (val d v).

(** The time of flight, [(2 * v * sin(angle)) / g]. *)
Definition flight (d v : R) : R := 2 * v * sin (angle d v) / g.

(** The unrounded position at time [t]. *)
Definition x_at (v theta t : R) : R := v * cos theta * t.
Definition y_at (v theta t : R) : R := v * sin theta * t - 1 / 2 * g * t ^ 2.

(** The 50 sample times. *)
Definition samples (T : R) : list R := Np.linspace 0 T 50.

(** The retention test of the loop, as a boolean. *)
Definition above_ground (v theta t : R) : bool :=
  if Rle_dec 0 (y_at v theta t) then true else false.

(** The sample times that survive the retention test, in loop order. *)
Definition kept_times (v theta T : R) : list R :=
  filter (above_ground v theta) (samples T).

(** The entry appended for a retained sample. *)
Definition point_at (v theta t : R) : PathPoint :=
  {| x := Py.round (x_at v theta t) 2; y := Py.round (y_at v theta t) 2 |}.

(** The value returned on success. *)
Definition solution (d v : R) : TrajectorySolution :=
  {| path := map (point_at v (angle d v))
               (kept_times v (angle d v) (flight d v));
     calculated_angle := Py.round (Py.degrees (angle d v)) 2;
     time_of_flight := Py.round (flight d v) 2 |}.

(** The launch point. *)
Definition origin : PathPoint := {| x := 0; y := 0 |}.

(** The order of two path points by horizontal displacement. *)
Definition x_le (p q : PathPoint) : Prop := x p <= x q.

(** The [i]-th sample time, [i * T / 49]. *)
Definition sample_time (T : R) (i : nat) : R := INR i * T / 49.

(** ** The computation without any rounding, and rounding as a last pass

    These follow the specification's wording ("rounded ... as the last step,
    after all derivations"); [get_trajectory] above rounds inline. *)






(** ** The request model and mirror images

    [TrajectoryInput] declares [velocity: float = 120.0]: a request body
    without a velocity is completed with the default. *)



(** The reflection of a path point in the vertical axis through the launch
    point. *)
Definition mirror (p : PathPoint) : PathPoint := {| x := - x p; y := y p |}.

(** * Properties *)

(** ** Rounding *)

Section Rounding.

Lemma round_half_even_cases (r : R) :
  let f := Zfloor r in
  (Py.round_half_even r = f /\ r - IZR f <= 1 / 2) \/
  (Py.round_half_even r = (f + 1)%Z /\ 1 / 2 <= r - IZR f).
Proof.
  intros f. unfold Py.round_half_even. fold f.
  destruct (Rlt_dec (r - IZR f) (1 / 2)) as [Hlt | Hge].
  - left. split; [reflexivity | lra].
  - destruct (Rlt_dec (1 / 2) (r - IZR f)) as [Hgt | Hle].
    + right. split; [reflexivity | lra].
    + destruct (Z.even f); [left | right]; split; try reflexivity; lra.
Qed.

(** The rounded integer is within one half of the argument. *)
Lemma round_half_even_near (r : R) :
  r - 1 / 2 <= IZR (Py.round_half_even r) <= r + 1 / 2.
Proof.
  pose proof (Zfloor_bound r) as Hb.
  destruct (round_half_even_cases r) as [[-> H] | [-> H]].
  - lra.
  - rewrite plus_IZR. lra.
Qed.

(** A real strictly within one half of an integer rounds to it. *)
Lemma round_half_even_eq (r : R) (z : Z) :
  IZR z - 1 / 2 < r < IZR z + 1 / 2 -> Py.round_half_even r = z.
Proof.
  intros Hr.
  pose proof (round_half_even_near r) as Hn.
  apply Z.le_antisymm.
  - apply Z.lt_succ_r. apply lt_IZR. rewrite succ_IZR. lra.
  - apply Z.lt_pred_le. apply lt_IZR. unfold Z.pred. rewrite plus_IZR. lra.
Qed.

Lemma round_half_even_IZR (z : Z) : Py.round_half_even (IZR z) = z.
Proof. apply round_half_even_eq. lra. Qed.

(** Rounding is monotone. *)
Lemma round_half_even_mono (r s : R) :
  r <= s -> (Py.round_half_even r <= Py.round_half_even s)%Z.
Proof.
  intros Hrs.
  pose proof (Zfloor_le r s Hrs) as Hf.
  pose proof (Zfloor_bound r) as Hr.
  pose proof (Zfloor_bound s) as Hs.
  destruct (Z.eq_dec (Zfloor r) (Zfloor s)) as [Heq | Hne].
  - unfold Py.round_half_even. rewrite <- Heq.
    destruct (Rlt_dec (r - IZR (Zfloor r)) (1 / 2));
      destruct (Rlt_dec (s - IZR (Zfloor r)) (1 / 2)); try lia; try lra;
      destruct (Rlt_dec (1 / 2) (r - IZR (Zfloor r)));
      destruct (Rlt_dec (1 / 2) (s - IZR (Zfloor r))); try lia; try lra;
      destruct (Z.even (Zfloor r)); lia.
  - assert (Zfloor r + 1 <= Zfloor s)%Z as Hlt by lia.
    destruct (round_half_even_cases r) as [[-> _] | [-> _]];
      destruct (round_half_even_cases s) as [[-> _] | [-> _]]; lia.
Qed.

Lemma pow10_2 : 10 ^ 2 = 100.
Proof. simpl. lra. Qed.

Lemma round2_unfold (a : R) :
  Py.round a 2 = IZR (Py.round_half_even (a * 100)) / 100.
Proof. unfold Py.round. rewrite pow10_2. reflexivity. Qed.

Lemma round2_mono (a b : R) : a <= b -> Py.round a 2 <= Py.round b 2.
Proof.
  intros Hab. rewrite !round2_unfold.
  assert (IZR (Py.round_half_even (a * 100)) <=
          IZR (Py.round_half_even (b * 100))) as H.
  { apply IZR_le. apply round_half_even_mono. lra. }
  lra.
Qed.

(** A multiple of one hundredth is left unchanged. *)
Lemma round2_hundredths (z : Z) : Py.round (IZR z / 100) 2 = IZR z / 100.
Proof.
  rewrite round2_unfold.
  replace (IZR z / 100 * 100) with (IZR z) by lra.
  now rewrite round_half_even_IZR.
Qed.

Lemma round2_0 : Py.round 0 2 = 0.
Proof.
  replace 0 with (IZR 0 / 100) at 1 by lra.
  rewrite round2_hundredths. lra.
Qed.

Lemma round2_nonneg (a : R) : 0 <= a -> 0 <= Py.round a 2.
Proof. intros Ha. rewrite <- round2_0. now apply round2_mono. Qed.

Lemma round2_nonpos (a : R) : a <= 0 -> Py.round a 2 <= 0.
Proof. intros Ha. rewrite <- round2_0. now apply round2_mono. Qed.


(** A real strictly within half a hundredth of [z / 100] rounds to it. *)
Lemma round2_eq (a : R) (z : Z) :
  IZR z / 100 - 1 / 200 < a < IZR z / 100 + 1 / 200 ->
  Py.round a 2 = IZR z / 100.
Proof.
  intros Ha. rewrite round2_unfold.
  rewrite (round_half_even_eq (a * 100) z); [reflexivity | lra].
Qed.

End Rounding.

(** ** Sampling *)

Section Sampling.

Lemma linspace_length (a b : R) (n : nat) : length (Np.linspace a b n) = n.
Proof. unfold Np.linspace. now rewrite length_map, length_seq. Qed.

Lemma linspace_nth (a b : R) (n i : nat) :
  (i < n)%nat ->
  nth i (Np.linspace a b n) 0 = a + INR i * ((b - a) / INR (n - 1)).
Proof.
  intros Hi. unfold Np.linspace.
  set (f := fun k : nat => a + INR k * ((b - a) / INR (n - 1))).
  rewrite (nth_indep _ 0 (f 0%nat)) by now rewrite length_map, length_seq.
  rewrite map_nth, seq_nth by assumption. reflexivity.
Qed.

Lemma INR_49 : INR 49 = 49.
Proof. rewrite INR_IZR_INZ. reflexivity. Qed.

Lemma samples_length (T : R) : length (samples T) = 50%nat.
Proof. apply linspace_length. Qed.

(** The [i]-th sample is [i * T / 49]: the samples are evenly spaced. *)
Lemma samples_nth (T : R) (i : nat) :
  (i < 50)%nat -> nth i (samples T) 0 = INR i * T / 49.
Proof.
  intros Hi. unfold samples. rewrite linspace_nth by assumption.
  change (50 - 1)%nat with 49%nat. rewrite INR_49. lra.
Qed.

Lemma samples_In (T t : R) :
  In t (samples T) -> exists i : nat, (i < 50)%nat /\ t = INR i * T / 49.
Proof.
  intros Hin. destruct (In_nth _ _ 0 Hin) as [i [Hi Ht]].
  rewrite samples_length in Hi. exists i. split; [assumption |].
  now rewrite <- Ht, samples_nth.
Qed.

(** The loop appends, in order, one entry per retained sample. *)
Lemma loop_fold (v theta : R) (ts : list R) (acc : list PathPoint) :
  fold_left (loop_body v theta) ts acc =
  acc ++ map (point_at v theta) (filter (above_ground v theta) ts).
Proof.
  revert acc. induction ts as [| t ts IH]; intros acc; cbn [fold_left filter].
  - cbn [map]. now rewrite app_nil_r.
  - rewrite IH. unfold loop_body, above_ground.
    change (v * sin theta * t - 1 / 2 * g * t ^ 2) with (y_at v theta t).
    destruct (Rle_dec 0 (y_at v theta t)); cbn [map].
    + rewrite <- app_assoc. reflexivity.
    + reflexivity.
Qed.

End Sampling.

(** ** The three outcomes of [solve] *)

Section Outcomes.

Lemma g_pos : 0 < g.
Proof. unfold g. lra. Qed.

Lemma between_true (lo a hi : R) : between lo a hi = true <-> lo <= a <= hi.
Proof.
  unfold between.
  destruct (Rle_dec lo a); destruct (Rle_dec a hi); split;
    intros H; try discriminate; try reflexivity; lra.
Qed.

Lemma between_false (lo a hi : R) :
  between lo a hi = false <-> a < lo \/ hi < a.
Proof.
  unfold between.
  destruct (Rle_dec lo a); destruct (Rle_dec a hi); split;
    intros H; try discriminate; try reflexivity; lra.
Qed.

Lemma sq_zero (v : R) : v ^ 2 = 0 <-> v = 0.
Proof.
  split; intros H.
  - simpl in H. nra.
  - subst. simpl. lra.
Qed.

(** A zero velocity: the division raises. *)
Lemma solve_zero_velocity (d : R) : solve d 0 = Raise ZeroDivisionError.
Proof.
  unfold solve, get_trajectory, Py.truediv. simpl velocity.
  destruct (Req_dec_T (0 ^ 2) 0) as [_ | Hne]; [reflexivity |].
  exfalso. apply Hne. simpl. lra.
Qed.

(** A non-zero velocity and [val] outside [-1, 1]: the 400 response. *)
Lemma solve_unreachable (d v : R) :
  v <> 0 -> val d v < -1 \/ 1 < val d v ->
  solve d v = Raise (HTTPException 400 out_of_range).
Proof.
  intros Hv Hval.
  unfold solve, get_trajectory, Py.truediv. simpl velocity. simpl target_distance.
  destruct (Req_dec_T (v ^ 2) 0) as [Hz | _].
  { apply (proj1 (sq_zero v)) in Hz. contradiction. }
  cbn [bind]. fold (val d v).
  apply between_false in Hval. now rewrite Hval.
Qed.

(** A non-zero velocity and [val] inside [-1, 1]: the solution. *)
Lemma solve_reachable (d v : R) :
  v <> 0 -> -1 <= val d v <= 1 ->
  solve d v =
  Return {| path := map (point_at v (angle d v))
                      (kept_times v (angle d v) (flight d v));
            calculated_angle := Py.round (Py.degrees (angle d v)) 2;
            time_of_flight := Py.round (flight d v) 2 |}.
Proof.
  intros Hv Hval.
  unfold solve, get_trajectory, Py.truediv. simpl velocity. simpl target_distance.
  destruct (Req_dec_T (v ^ 2) 0) as [Hz | _].
  { apply (proj1 (sq_zero v)) in Hz. contradiction. }
  cbn [bind]. fold (val d v).
  pose proof Hval as Hb. apply between_true in Hb. rewrite Hb. cbn [negb bind].
  unfold Py.asin.
  destruct (Rle_dec (-1) (val d v)) as [_ | Hn]; [| lra].
  destruct (Rle_dec (val d v) 1) as [_ | Hn]; [| lra].
  cbn [bind]. fold (angle d v).
  destruct (Req_dec_T g 0) as [Hg | _].
  { pose proof g_pos. lra. }
  cbn [bind]. fold (flight d v).
  rewrite loop_fold. cbn [app]. unfold kept_times, samples. reflexivity.
Qed.

End Outcomes.

Section Inversion.

(** A call that returns had a non-zero velocity and a [val] in [-1, 1], and
    returned [solution d v]. *)
Lemma solve_Return_inv (d v : R) (s : TrajectorySolution) :
  solve d v = Return s ->
  v <> 0 /\ -1 <= val d v <= 1 /\ s = solution d v.
Proof.
  intros Hs.
  destruct (Req_dec_T v 0) as [Hv | Hv].
  { subst v. rewrite solve_zero_velocity in Hs. discriminate. }
  destruct (Rle_dec (-1) (val d v)) as [Hlo | Hlo].
  - destruct (Rle_dec (val d v) 1) as [Hhi | Hhi].
    + rewrite solve_reachable in Hs by (auto; lra).
      injection Hs as <-. repeat split; auto.
    + rewrite solve_unreachable in Hs by (auto; lra). discriminate.
  - rewrite solve_unreachable in Hs by (auto; lra). discriminate.
Qed.


End Inversion.

(** ** The geometry of the solution *)

Section Geometry.

Variables d v : R.
Hypothesis v_nonzero : v <> 0.
Hypothesis val_in_range : -1 <= val d v <= 1.

Lemma angle_bounds : - (PI / 4) <= angle d v <= PI / 4.
Proof.
  unfold angle. pose proof (asin_bound (val d v)). lra.
Qed.

(** The angle solves the range equation [sin(2 theta) = val]. *)
Lemma sin_2angle : sin (2 * angle d v) = val d v.
Proof.
  unfold angle.
  replace (2 * (1 / 2 * Ratan.asin (val d v))) with (Ratan.asin (val d v)) by lra.
  now apply sin_asin.
Qed.

Lemma cos_angle_pos : 0 < cos (angle d v).
Proof.
  pose proof angle_bounds. pose proof PI_RGT_0.
  apply cos_gt_0; lra.
Qed.

Lemma val_times_v2 : val d v * v ^ 2 = g * d.
Proof.
  unfold val. field. intros H. apply v_nonzero. simpl in H. nra.
Qed.

(** The horizontal reach at the time of flight is the target distance. *)
Lemma reach : v * cos (angle d v) * flight d v = d.
Proof.
  pose proof sin_2angle as H2. rewrite sin_2a in H2.
  pose proof val_times_v2 as Hv. pose proof g_pos as Hg.
  unfold flight.
  assert (g * (v * cos (angle d v) * (2 * v * sin (angle d v) / g)) = g * d) as H.
  { rewrite <- Hv, <- H2. field. lra. }
  nra.
Qed.

(** The sign of [sin angle] is the sign of [val]. *)
Lemma sin_angle_sign :
  (0 <= val d v -> 0 <= sin (angle d v)) /\
  (0 < val d v -> 0 < sin (angle d v)) /\
  (val d v < 0 -> sin (angle d v) < 0).
Proof.
  pose proof sin_2angle as H2. rewrite sin_2a in H2.
  pose proof cos_angle_pos as Hc.
  repeat split; intros H; nra.
Qed.

Lemma angle_sign :
  (0 <= val d v -> 0 <= angle d v) /\
  (0 < val d v -> 0 < angle d v) /\
  (val d v < 0 -> angle d v < 0).
Proof.
  pose proof angle_bounds as Hb. pose proof PI_RGT_0 as Hpi.
  pose proof sin_angle_sign as [Hs0 [Hs1 Hs2]].
  repeat split; intros H.
  - destruct (Rle_dec 0 (angle d v)) as [| Hn]; [assumption |].
    assert (sin (angle d v) < 0) by (apply sin_lt_0_var; lra).
    specialize (Hs0 H). lra.
  - destruct (Rlt_dec 0 (angle d v)) as [| Hn]; [assumption |].
    specialize (Hs1 H).
    destruct (Req_dec_T (angle d v) 0) as [E | E].
    + rewrite E, sin_0 in Hs1. lra.
    + assert (sin (angle d v) < 0) by (apply sin_lt_0_var; lra). lra.
  - destruct (Rlt_dec (angle d v) 0) as [| Hn]; [assumption |].
    specialize (Hs2 H).
    assert (0 <= sin (angle d v)) by (apply sin_ge_0; lra). lra.
Qed.

End Geometry.

Section Retention.

(** With [T = 2 v sin(theta) / g] the height at time [t] is
    [(g / 2) * t * (T - t)]. *)
Lemma y_at_factored (v theta t : R) :
  y_at v theta t = g / 2 * t * (2 * v * sin theta / g - t).
Proof.
  unfold y_at. pose proof g_pos. field. lra.
Qed.

Lemma y_at_sample (v theta : R) (i : nat) :
  (i < 50)%nat ->
  let T := 2 * v * sin theta / g in
  y_at v theta (INR i * T / 49) = g / 2 * T ^ 2 * (INR i / 49) * (1 - INR i / 49).
Proof.
  intros Hi T. rewrite y_at_factored. fold T. field.
Qed.

Lemma INR_lt_50 (i : nat) : (i < 50)%nat -> 0 <= INR i <= 49.
Proof.
  intros Hi. split; [apply pos_INR |].
  rewrite <- INR_49. apply le_INR. lia.
Qed.

(** Every sample between launch and landing is at or above the ground. *)
Lemma sample_above_ground (v theta : R) (i : nat) :
  (i < 50)%nat ->
  0 <= y_at v theta (INR i * (2 * v * sin theta / g) / 49).
Proof.
  intros Hi. rewrite y_at_sample by assumption. cbv zeta.
  set (T := 2 * v * sin theta / g).
  pose proof (INR_lt_50 i Hi) as Hb. pose proof g_pos as Hg.
  assert (0 <= T ^ 2) as Hsq by apply pow2_ge_0.
  assert (0 <= g / 2 * T ^ 2) as H1 by (apply Rmult_le_pos; lra).
  assert (0 <= g / 2 * T ^ 2 * (INR i / 49)) as H2 by (apply Rmult_le_pos; lra).
  apply Rmult_le_pos; lra.
Qed.

Lemma filter_all {A : Type} (f : A -> bool) (l : list A) :
  (forall a, In a l -> f a = true) -> filter f l = l.
Proof.
  induction l as [| a l IH]; intros H; simpl; [reflexivity |].
  rewrite (H a) by now left.
  f_equal. apply IH. intros b Hb. apply H. now right.
Qed.

(** Over the reals the retention test keeps every one of the samples. *)
Lemma kept_all (d v : R) :
  kept_times v (angle d v) (flight d v) = samples (flight d v).
Proof.
  unfold kept_times. apply filter_all. intros t Ht.
  destruct (samples_In _ _ Ht) as [i [Hi ->]].
  unfold above_ground, flight.
  destruct (Rle_dec 0 (y_at v (angle d v)
                         (INR i * (2 * v * sin (angle d v) / g) / 49)))
    as [_ | Hn]; [reflexivity |].
  exfalso. apply Hn. now apply sample_above_ground.
Qed.

(** The retention test and the monotone rounding keep every entry of the
    path at or above the ground. *)
Lemma solution_above_ground (d v : R) :
  Forall (fun p => 0 <= y p) (path (solution d v)).
Proof.
  cbn [path solution]. apply Forall_map. unfold kept_times.
  apply Forall_forall. intros t Ht. apply filter_In in Ht as [_ Ht].
  unfold above_ground in Ht. cbn [y point_at].
  destruct (Rle_dec 0 (y_at v (angle d v) t)) as [Hy | _]; [| discriminate].
  now apply round2_nonneg.
Qed.

Lemma last_In {A : Type} (l : list A) (a : A) : l <> [] -> In (last l a) l.
Proof.
  induction l as [| b l IH]; intros Hne; [contradiction |].
  destruct l as [| c l]; [now left |].
  right. apply IH. discriminate.
Qed.

End Retention.

(** ** The range equation and its two solutions *)

Section RangeEquation.

Lemma sin_inj_principal (a b : R) :
  - (PI / 2) <= a <= PI / 2 -> - (PI / 2) <= b <= PI / 2 ->
  sin a = sin b -> a = b.
Proof.
  intros Ha Hb Hs.
  apply Rle_antisym; apply sin_incr_0; lra.
Qed.

(** [d = v^2 sin(2 theta) / g] says [sin(2 theta) = val]. *)
Lemma range_equation_val (d v theta : R) :
  v <> 0 -> (v ^ 2 * sin (2 * theta) / g = d <-> sin (2 * theta) = val d v).
Proof.
  intros Hv. pose proof g_pos as Hg.
  assert (v ^ 2 <> 0) as Hv2 by (intros H; apply (proj1 (sq_zero v)) in H; contradiction).
  unfold val. split; intros H.
  - rewrite <- H. field. split; lra.
  - rewrite H. field. split; lra.
Qed.

(** Within one period, [-45 deg .. 135 deg], the range equation has the two
    solutions [angle] and [90 deg - angle] and no other. *)
Lemma range_equation_solutions (d v theta : R) :
  v <> 0 -> -1 <= val d v <= 1 ->
  - (PI / 4) <= theta <= 3 * (PI / 4) ->
  (v ^ 2 * sin (2 * theta) / g = d <->
   theta = angle d v \/ theta = PI / 2 - angle d v).
Proof.
  intros Hv Hval Hth.
  rewrite (range_equation_val d v theta Hv).
  pose proof (angle_bounds d v) as Hb.
  pose proof (sin_2angle d v Hval) as H2.
  split.
  - intros Hs. rewrite <- H2 in Hs.
    destruct (Rle_dec (2 * theta) (PI / 2)) as [Hle | Hgt].
    + left. apply sin_inj_principal in Hs; lra.
    + right. rewrite <- (sin_PI_x (2 * theta)) in Hs.
      apply sin_inj_principal in Hs; lra.
  - intros [-> | ->]; [assumption |].
    replace (2 * (PI / 2 - angle d v)) with (PI - 2 * angle d v) by lra.
    now rewrite sin_PI_x.
Qed.

End RangeEquation.

(** ** The calls of the scenarios *)

Section Calls.

Lemma val_0 (v : R) : v <> 0 -> val 0 v = 0.
Proof.
  intros Hv. unfold val. field. assumption.
Qed.

Lemma val_500_120 : val 500 120 = 109 / 320.
Proof. unfold val, g. field. Qed.

Lemma solve_500_120 : solve 500 120 = Return (solution 500 120).
Proof. apply solve_reachable; [lra | rewrite val_500_120; lra]. Qed.

Lemma val_neg500_120 : val (-500) 120 = - (109 / 320).
Proof. unfold val, g. field. Qed.

Lemma solve_neg500_120 : solve (-500) 120 = Return (solution (-500) 120).
Proof. apply solve_reachable; [lra | rewrite val_neg500_120; lra]. Qed.

End Calls.

(** ** The path, sample by sample *)

Section PathByIndex.

Lemma samples_seq (T : R) : samples T = map (sample_time T) (seq 0 50).
Proof.
  unfold samples, Np.linspace. apply map_ext. intros i.
  change (50 - 1)%nat with 49%nat. rewrite INR_49. unfold sample_time. lra.
Qed.

(** Over the reals the path of a solution has one entry per sample. *)
Lemma path_seq (d v : R) :
  path (solution d v) =
  map (fun i => point_at v (angle d v) (sample_time (flight d v) i)) (seq 0 50).
Proof.
  cbn [path solution]. rewrite kept_all, samples_seq, map_map. reflexivity.
Qed.

Lemma path_length (d v : R) : List.length (path (solution d v)) = 50%nat.
Proof. now rewrite path_seq, length_map, length_seq. Qed.

(** The unrounded abscissa of the [i]-th sample is [d * i / 49]. *)
Lemma x_at_sample (d v : R) (i : nat) :
  v <> 0 -> -1 <= val d v <= 1 ->
  x_at v (angle d v) (sample_time (flight d v) i) = d * INR i / 49.
Proof.
  intros Hv Hval. unfold x_at, sample_time.
  pose proof (reach d v Hv Hval) as Hr.
  replace (v * cos (angle d v) * (INR i * flight d v / 49))
    with (v * cos (angle d v) * flight d v * INR i / 49) by lra.
  now rewrite Hr.
Qed.

Lemma point_at_launch (v theta : R) : point_at v theta 0 = origin.
Proof.
  unfold point_at, origin, x_at, y_at.
  replace (v * cos theta * 0) with 0 by lra.
  replace (v * sin theta * 0 - 1 / 2 * g * 0 ^ 2) with 0 by (simpl; lra).
  now rewrite round2_0.
Qed.

Lemma sample_time_0 (T : R) : sample_time T 0 = 0.
Proof. unfold sample_time. simpl. lra. Qed.

(** The first entry of the path of a solution is the launch point. *)
Lemma path_head (d v : R) : hd_error (path (solution d v)) = Some origin.
Proof.
  rewrite path_seq. cbn [seq map hd_error].
  now rewrite sample_time_0, point_at_launch.
Qed.

Lemma sample_time_mono (T : R) (i j : nat) :
  0 <= T -> (i <= j)%nat -> sample_time T i <= sample_time T j.
Proof.
  intros HT Hij. unfold sample_time.
  apply le_INR in Hij. nra.
Qed.

Lemma sample_time_strict (T : R) (i j : nat) :
  0 < T -> (i < j)%nat -> sample_time T i < sample_time T j.
Proof.
  intros HT Hij. unfold sample_time.
  apply lt_INR in Hij. nra.
Qed.

(** A list built over consecutive indices is sorted as soon as the builder
    respects the order of the indices. *)
Lemma StronglySorted_map_seq {A : Type} (lt : A -> A -> Prop)
  (h : nat -> A) (a n : nat) :
  (forall i j : nat, (i < j)%nat -> lt (h i) (h j)) ->
  StronglySorted lt (map h (seq a n)).
Proof.
  intros Hmono. revert a. induction n as [| n IH]; intros a; cbn [seq map].
  - constructor.
  - constructor; [apply IH |].
    apply Forall_forall. intros b Hb. apply in_map_iff in Hb as [j [<- Hj]].
    apply in_seq in Hj. apply Hmono. lia.
Qed.

End PathByIndex.

Section Signs.

Variables d v : R.
Hypothesis v_nonzero : v <> 0.

Lemma val_sign :
  (0 <= d -> 0 <= val d v) /\ (0 < d -> 0 < val d v) /\ (d < 0 -> val d v < 0).
Proof.
  pose proof (val_times_v2 d v v_nonzero) as H. pose proof g_pos as Hg.
  assert (0 < v ^ 2) as Hv2.
  { assert (v ^ 2 <> 0) by (intros E; apply (proj1 (sq_zero v)) in E; contradiction).
    pose proof (pow2_ge_0 v). lra. }
  repeat split; intros Hd.
  - destruct (Rle_dec 0 (val d v)); [assumption | nra].
  - destruct (Rlt_dec 0 (val d v)); [assumption | nra].
  - destruct (Rlt_dec (val d v) 0); [assumption | nra].
Qed.

(** The sign of the flight time is the sign of [v * d]. *)
Lemma flight_sign :
  -1 <= val d v <= 1 ->
  (0 <= d -> 0 < v -> 0 <= flight d v) /\
  (0 < d -> 0 < v -> 0 < flight d v) /\
  (d < 0 -> 0 < v -> flight d v < 0).
Proof.
  intros Hval. pose proof g_pos as Hg.
  destruct val_sign as [V0 [V1 V2]].
  destruct (sin_angle_sign d v Hval) as [S0 [S1 S2]].
  unfold flight.
  repeat split; intros Hd Hv.
  - specialize (S0 (V0 Hd)). apply Rmult_le_pos; [nra |].
    apply Rlt_le, Rinv_0_lt_compat, Hg.
  - specialize (S1 (V1 Hd)). apply Rmult_lt_0_compat; [nra |].
    apply Rinv_0_lt_compat, Hg.
  - specialize (S2 (V2 Hd)).
    assert (0 < - (2 * v * sin (angle d v)) * / g) as H.
    { apply Rmult_lt_0_compat; [nra | apply Rinv_0_lt_compat, Hg]. }
    unfold Rdiv. lra.
Qed.

End Signs.

(** ** The degenerate target at distance zero *)

Section ZeroDistance.

Lemma angle_0 (v : R) : v <> 0 -> angle 0 v = 0.
Proof.
  intros Hv. unfold angle. rewrite val_0 by assumption. rewrite asin_0. lra.
Qed.

Lemma flight_0 (v : R) : v <> 0 -> flight 0 v = 0.
Proof.
  intros Hv. unfold flight. rewrite angle_0 by assumption. rewrite sin_0.
  unfold g. field.
Qed.

Lemma map_const_seq {A : Type} (h : nat -> A) (c : A) (a n : nat) :
  (forall i : nat, h i = c) -> map h (seq a n) = repeat c n.
Proof.
  intros Hc. revert a. induction n as [| n IH]; intros a; cbn [seq map repeat].
  - reflexivity.
  - now rewrite Hc, IH.
Qed.

Lemma path_0 (v : R) : v <> 0 -> path (solution 0 v) = repeat origin 50.
Proof.
  intros Hv. rewrite path_seq. apply map_const_seq. intros i.
  rewrite flight_0 by assumption.
  replace (sample_time 0 i) with 0 by (unfold sample_time; lra).
  apply point_at_launch.
Qed.

Lemma solve_0_120 : solve 0 120 = Return (solution 0 120).
Proof. apply solve_reachable; [lra | rewrite val_0; lra]. Qed.

End ZeroDistance.

(** ** Numerical enclosures *)

Section Enclosures.

Lemma INR_11 : INR 11 = 11.
Proof. rewrite INR_IZR_INZ. reflexivity. Qed.

(** Four decimals of [PI], from the Machin-like series of the library. *)
Lemma PI_bounds : 31415 / 10000 < PI < 31416 / 10000.
Proof.
  destruct (PI_2_3_7_ineq 2) as [Hl Hu].
  unfold PI_2_3_7_tg, tg_alt, Ratan_seq in Hl, Hu.
  cbn [sum_f_R0 Nat.mul Nat.add] in Hl, Hu.
  rewrite !INR_IZR_INZ in Hl, Hu.
  cbn [Z.of_nat Pos.of_succ_nat Pos.succ] in Hl, Hu.
  rewrite INR_11 in Hl.
  split; lra.
Qed.

Lemma INR_fact_3 : INR (fact 3) = 6.
Proof. rewrite INR_IZR_INZ. apply f_equal. reflexivity. Qed.

Lemma INR_fact_5 : INR (fact 5) = 120.
Proof. rewrite INR_IZR_INZ. apply f_equal. reflexivity. Qed.

Lemma INR_fact_7 : INR (fact 7) = 5040.
Proof. rewrite INR_IZR_INZ. apply f_equal. vm_compute. reflexivity. Qed.

Lemma INR_fact_9 : INR (fact 9) = 362880.
Proof. rewrite INR_IZR_INZ. apply f_equal. vm_compute. reflexivity. Qed.

(** The Taylor polynomials of degree 7 and 9 enclose the sine on [[0, PI]]. *)
Lemma sin_poly_bounds (a : R) :
  0 <= a <= PI ->
  a - a ^ 3 / 6 + a ^ 5 / 120 - a ^ 7 / 5040 <= sin a
  <= a - a ^ 3 / 6 + a ^ 5 / 120 - a ^ 7 / 5040 + a ^ 9 / 362880.
Proof.
  intros [H0 H1]. pose proof (SIN a H0 H1) as H.
  unfold sin_lb, sin_ub, sin_approx, sin_term in H.
  cbn [sum_f_R0] in H.
  change (2 * 0 + 1)%nat with 1%nat in H.
  change (2 * 1 + 1)%nat with 3%nat in H.
  change (2 * 2 + 1)%nat with 5%nat in H.
  change (2 * 3 + 1)%nat with 7%nat in H.
  change (2 * 4 + 1)%nat with 9%nat in H.
  rewrite INR_fact_3, INR_fact_5, INR_fact_7, INR_fact_9 in H.
  change (fact 1) with 1%nat in H. change (INR 1) with 1 in H.
  lra.
Qed.

(** Enclosing an arcsine by enclosing its argument between two sines. *)
Lemma asin_enclosure (u lo hi : R) :
  -1 <= u <= 1 ->
  - (PI / 2) <= lo <= PI / 2 -> - (PI / 2) <= hi <= PI / 2 ->
  sin lo <= u <= sin hi ->
  lo <= Ratan.asin u <= hi.
Proof.
  intros Hu Hlo Hhi [Hsl Hsh].
  pose proof (asin_bound u) as Hb.
  pose proof (sin_asin u Hu) as Hs.
  split; apply sin_incr_0; lra.
Qed.

End Enclosures.

(** ** The scenario [solve(target_distance=500, velocity=120)] *)

Section Scenario500.

Lemma asin_109_320 :
  34757 / 100000 <= Ratan.asin (109 / 320) <= 34759 / 100000.
Proof.
  pose proof PI_bounds as Hpi.
  pose proof (sin_poly_bounds (34757 / 100000)) as Hlo.
  pose proof (sin_poly_bounds (34759 / 100000)) as Hhi.
  apply asin_enclosure; lra.
Qed.

Lemma angle_500_120 : 34757 / 200000 <= angle 500 120 <= 34759 / 200000.
Proof.
  unfold angle. rewrite val_500_120. pose proof asin_109_320. lra.
Qed.

(** Bounds on an angle in degrees from bounds on it in radians. *)
Lemma degrees_bounds (a lo hi : R) :
  lo * PI < a * 180 < hi * PI -> lo < Py.degrees a < hi.
Proof.
  intros [Hl Hh]. pose proof PI_RGT_0 as Hpi. unfold Py.degrees.
  assert (a * (180 / PI) * PI = a * 180) as E by (field; lra).
  split.
  - apply Rmult_lt_reg_r with PI; [assumption | lra].
  - apply Rmult_lt_reg_r with PI; [assumption | lra].
Qed.

Lemma degrees_500_120 :
  9955 / 1000 < Py.degrees (angle 500 120) < 9965 / 1000.
Proof.
  pose proof angle_500_120 as Ha. pose proof PI_bounds as Hpi.
  apply degrees_bounds. lra.
Qed.

Lemma sin_angle_500_120 :
  17290 / 100000 <= sin (angle 500 120) <= 17293 / 100000.
Proof.
  pose proof angle_500_120 as Ha. pose proof PI_bounds as Hpi.
  pose proof (sin_poly_bounds (34757 / 200000)) as Hlo.
  pose proof (sin_poly_bounds (34759 / 200000)) as Hhi.
  assert (sin (34757 / 200000) <= sin (angle 500 120)) as H1
    by (apply sin_incr_1; lra).
  assert (sin (angle 500 120) <= sin (34759 / 200000)) as H2
    by (apply sin_incr_1; lra).
  lra.
Qed.

Lemma flight_500_120 : 4225 / 1000 < flight 500 120 < 4235 / 1000.
Proof.
  pose proof sin_angle_500_120 as Hs. unfold flight, g. lra.
Qed.

Lemma calculated_angle_500_120 :
  calculated_angle (solution 500 120) = 996 / 100.
Proof.
  cbn [calculated_angle solution]. pose proof degrees_500_120 as H.
  replace (996 / 100) with (IZR 996 / 100) by lra.
  apply round2_eq. lra.
Qed.

Lemma time_of_flight_500_120 :
  time_of_flight (solution 500 120) = 423 / 100.
Proof.
  cbn [time_of_flight solution]. pose proof flight_500_120 as H.
  replace (423 / 100) with (IZR 423 / 100) by lra.
  apply round2_eq. lra.
Qed.

End Scenario500.

(** ** A target behind the launch point *)

Section NegativeDistance.







End NegativeDistance.

(** * The claims *)



(** C2.  A successful call returns the angle [0.5 * arcsin(val)], in degrees
    and rounded to two decimals.  That angle solves the range equation, so
    does its complement to 90 degrees, these are the only solutions within a
    period, and the returned one is the lower of the two.  When
    [0 < val <= 1] the returned angle lies in [[0, 45]]. *)
Theorem C2_launch_angle (d v : R) (s : TrajectorySolution) :
  solve d v = Return s ->
  let theta := 1 / 2 * Ratan.asin (val d v) in
  calculated_angle s = Py.round (theta * (180 / PI)) 2 /\
  (forall theta' : R,
      - (PI / 4) <= theta' <= 3 * (PI / 4) ->
      (v ^ 2 * sin (2 * theta') / g = d <->
       theta' = theta \/ theta' = PI / 2 - theta)) /\
  theta <= PI / 2 - theta /\
  (0 < val d v -> 0 <= calculated_angle s <= 45).
Proof.
  intros Hs theta.
  destruct (solve_Return_inv d v s Hs) as [Hv [Hval ->]].
  fold (angle d v) in theta.
  pose proof (angle_bounds d v) as Hb. pose proof PI_RGT_0 as Hpi.
  split; [reflexivity |]. split; [| split].
  - intros theta' Hth. now apply range_equation_solutions.
  - subst theta. lra.
  - intros Hpos. cbn [calculated_angle solution].
    destruct (angle_sign d v Hval) as [_ [Hang _]]. specialize (Hang Hpos).
    unfold Py.degrees. fold theta in Hang, Hb |- *.
    assert (0 <= theta * (180 / PI) <= 45) as Hdeg.
    { assert (theta * (180 / PI) = theta * 180 / PI) as -> by (field; lra).
      split.
      - apply Rmult_le_reg_r with PI; [lra |].
        replace (theta * 180 / PI * PI) with (theta * 180) by (field; lra). lra.
      - apply Rmult_le_reg_r with PI; [lra |].
        replace (theta * 180 / PI * PI) with (theta * 180) by (field; lra). lra. }
    split.
    + apply round2_nonneg. lra.
    + apply Rle_trans with (Py.round 45 2); [apply round2_mono; lra |].
      replace 45 with (IZR 4500 / 100) by lra.
      rewrite round2_hundredths. lra.
Qed.

Lemma C2_launch_angle_witness :
  solve 500 120 = Return (solution 500 120) /\
  (0 < val 500 120 -> 0 <= calculated_angle (solution 500 120) <= 45).
Proof.
  split; [exact solve_500_120 |].
  exact (proj2 (proj2 (proj2
           (C2_launch_angle 500 120 (solution 500 120) solve_500_120)))).
Defined.



(** C4.  Every point of the path of a successful call has [0 <= y]. *)
Theorem C4_no_negative_height (d v : R) (s : TrajectorySolution) :
  solve d v = Return s -> Forall (fun p => 0 <= y p) (path s).
Proof.
  intros Hs.
  destruct (solve_Return_inv d v s Hs) as [_ [_ ->]].
  apply solution_above_ground.
Qed.

Lemma C4_no_negative_height_witness :
  solve 500 120 = Return (solution 500 120) /\
  Forall (fun p => 0 <= y p) (path (solution 500 120)).
Proof.
  split; [exact solve_500_120 |].
  exact (C4_no_negative_height 500 120 (solution 500 120) solve_500_120).
Defined.


(** C6, as amended.  The first point of every returned path is [(0, 0)].
    When the target distance is not negative the path is non-decreasing in
    [x]; when moreover the velocity is positive, the retained sample times
    start at [0] and are non-decreasing in path order, strictly increasing
    for a positive distance. *)
Theorem C6_path_order (d v : R) (s : TrajectorySolution) :
  solve d v = Return s ->
  let ts := kept_times v (angle d v) (flight d v) in
  path s = map (point_at v (angle d v)) ts /\
  hd_error (path s) = Some origin /\
  (0 <= d -> StronglySorted x_le (path s)) /\
  (0 <= d -> 0 < v -> hd_error ts = Some 0 /\ StronglySorted Rle ts) /\
  (0 < d -> 0 < v -> StronglySorted Rlt ts).
Proof.
  intros Hs ts.
  destruct (solve_Return_inv d v s Hs) as [Hv [Hval ->]].
  split; [reflexivity |]. split; [apply path_head |].
  destruct (flight_sign d v Hv Hval) as [F0 [F1 _]].
  subst ts. rewrite kept_all, samples_seq.
  split; [| split].
  - intros Hd. rewrite path_seq.
    apply StronglySorted_map_seq. intros i j Hij.
    unfold x_le. cbn [x point_at]. rewrite !x_at_sample by assumption.
    apply round2_mono. apply Nat.lt_le_incl, le_INR in Hij. nra.
  - intros Hd Hpos. split.
    + cbn [seq map hd_error]. now rewrite sample_time_0.
    + apply StronglySorted_map_seq. intros i j Hij.
      apply sample_time_mono; auto. now apply Nat.lt_le_incl.
  - intros Hd Hpos.
    apply StronglySorted_map_seq. intros i j Hij.
    apply sample_time_strict; auto.
Qed.

Lemma C6_path_order_witness :
  solve 500 120 = Return (solution 500 120) /\
  (0 <= 500 -> StronglySorted x_le (path (solution 500 120))).
Proof.
  split; [exact solve_500_120 |].
  exact (proj1 (proj2 (proj2
           (C6_path_order 500 120 (solution 500 120) solve_500_120)))).
Defined.

(** C6 as stated fails for a negative target distance: with
    [target_distance = -500] and [velocity = 120] the call succeeds and the
    second point of the path lies at [x = -10.2], behind the first at
    [x = 0]. *)
Lemma C6_counterexample :
  solve (-500) 120 = Return (solution (-500) 120) /\
  nth 0 (path (solution (-500) 120)) origin = origin /\
  x (nth 1 (path (solution (-500) 120)) origin) = - (1020 / 100) /\
  ~ StronglySorted x_le (path (solution (-500) 120)).
Proof.
  assert (nth 0 (path (solution (-500) 120)) origin = origin) as H0.
  { rewrite path_seq. cbn [seq map nth].
    now rewrite sample_time_0, point_at_launch. }
  assert (x (nth 1 (path (solution (-500) 120)) origin) = - (1020 / 100)) as H1.
  { rewrite path_seq. cbn [seq map nth x point_at].
    rewrite x_at_sample by (try lra; rewrite val_neg500_120; lra).
    replace (- (1020 / 100)) with (IZR (-1020) / 100) by lra.
    apply round2_eq. simpl INR. lra. }
  split; [exact solve_neg500_120 |]. split; [exact H0 |]. split; [exact H1 |].
  intros Hsorted.
  destruct (path (solution (-500) 120)) as [| p0 [| p1 rest]] eqn:Hp.
  - cbn [nth] in H1. unfold origin in H1. cbn [x] in H1. lra.
  - cbn [nth] in H1. unfold origin in H1. cbn [x] in H1. lra.
  - cbn [nth] in H0, H1. subst p0.
    apply StronglySorted_inv in Hsorted as [_ Hall].
    apply Forall_inv in Hall. unfold x_le, origin in Hall. cbn [x] in Hall.
    fold origin in Hall. lra.
Qed.

(** C7, as amended.  [solve(target_distance=500, velocity=120)] succeeds
    with [val = 0.340625] and returns [calculated_angle = 9.96] and
    [time_of_flight = 4.23]; the first path point is [(0, 0)] and the last
    retained point has [0 <= y]. *)
Theorem C7_scenario_500_120 :
  solve 500 120 = Return (solution 500 120) /\
  val 500 120 = 340625 / 1000000 /\
  calculated_angle (solution 500 120) = 996 / 100 /\
  time_of_flight (solution 500 120) = 423 / 100 /\
  hd_error (path (solution 500 120)) = Some origin /\
  path (solution 500 120) <> [] /\
  0 <= y (last (path (solution 500 120)) origin).
Proof.
  assert (path (solution 500 120) <> []) as Hne.
  { intros E. pose proof (path_length 500 120) as Hlen.
    rewrite E in Hlen. discriminate. }
  split; [exact solve_500_120 |].
  split; [rewrite val_500_120; lra |].
  split; [exact calculated_angle_500_120 |].
  split; [exact time_of_flight_500_120 |].
  split; [apply path_head |].
  split; [exact Hne |].
  pose proof (solution_above_ground 500 120) as Hall.
  rewrite Forall_forall in Hall. apply Hall. now apply last_In.
Qed.

(** C7 as stated fails on the flight time: the call returns
    [time_of_flight = 4.23], which is 0.09 away from 4.14. *)
Lemma C7_counterexample :
  solve 500 120 = Return (solution 500 120) /\
  time_of_flight (solution 500 120) = 423 / 100 /\
  ~ Rabs (time_of_flight (solution 500 120) - 414 / 100) <= 5 / 100.
Proof.
  split; [exact solve_500_120 |].
  split; [exact time_of_flight_500_120 |].
  rewrite time_of_flight_500_120.
  replace (423 / 100 - 414 / 100) with (9 / 100) by lra.
  rewrite Rabs_pos_eq by lra. lra.
Qed.

(** C8, as amended.  [solve(target_distance=0, velocity=120)] yields
    [val = 0] and an angle of [0], returns [calculated_angle = 0] and
    [time_of_flight = 0], and returns a path of 50 entries, each of them the
    point [(0, 0)]. *)
Theorem C8_zero_distance :
  solve 0 120 = Return (solution 0 120) /\
  val 0 120 = 0 /\
  angle 0 120 = 0 /\
  calculated_angle (solution 0 120) = 0 /\
  time_of_flight (solution 0 120) = 0 /\
  path (solution 0 120) = repeat origin 50 /\
  Forall (fun p => y p = 0) (path (solution 0 120)).
Proof.
  assert (120 <> 0) as Hv by lra.
  split; [exact solve_0_120 |].
  split; [now apply val_0 |].
  split; [now apply angle_0 |].
  split; [| split; [| split]].
  - cbn [calculated_angle solution]. rewrite angle_0 by assumption.
    unfold Py.degrees. rewrite Rmult_0_l. apply round2_0.
  - cbn [time_of_flight solution]. rewrite flight_0 by assumption.
    apply round2_0.
  - now apply path_0.
  - rewrite path_0 by assumption. apply Forall_forall. intros p Hp.
    apply repeat_spec in Hp. now subst p.
Qed.

(** C8 as stated fails: the path of [solve(0, 120)] is neither the single
    point [(0, 0)] nor empty; it has 50 entries. *)
Lemma C8_counterexample :
  solve 0 120 = Return (solution 0 120) /\
  List.length (path (solution 0 120)) = 50%nat /\
  path (solution 0 120) <> [origin] /\
  path (solution 0 120) <> [].
Proof.
  pose proof (path_length 0 120) as Hlen.
  split; [exact solve_0_120 |]. split; [exact Hlen |].
  split; intros E; rewrite E in Hlen; discriminate.
Qed.

(** C9.  A velocity of zero makes the division [(g * d) / (v ** 2)] raise
    [ZeroDivisionError]: the outcome is then neither a solution nor the
    out-of-range response. *)
Theorem C9_zero_velocity_raises :
  solve 500 0 = Raise ZeroDivisionError /\
  (forall s, solve 500 0 <> Return s) /\
  (forall status detail, solve 500 0 <> Raise (HTTPException status detail)).
Proof.
  rewrite solve_zero_velocity.
  split; [reflexivity |]. split; intros; discriminate.
Qed.




(** * Further properties of the endpoint *)

(** ** Rounding is odd *)

Section RoundingSymmetry.

Lemma Zfloor_opp_frac (r : R) :
  IZR (Zfloor r) < r -> Zfloor (- r) = (- Zfloor r - 1)%Z.
Proof.
  intros Hlt. pose proof (Zfloor_bound r) as Hb.
  apply Zfloor_eq. rewrite minus_IZR, opp_IZR. lra.
Qed.

Lemma even_opp_pred (f : Z) : Z.even (- f - 1) = negb (Z.even f).
Proof.
  rewrite Z.even_sub, Z.even_opp. simpl. now destruct (Z.even f).
Qed.

Lemma round_half_even_opp (r : R) :
  Py.round_half_even (- r) = (- Py.round_half_even r)%Z.
Proof.
  pose proof (Zfloor_bound r) as Hb.
  destruct (Req_dec_T r (IZR (Zfloor r))) as [E | Hne].
  - rewrite E at 1 2. rewrite <- opp_IZR, !round_half_even_IZR. reflexivity.
  - assert (IZR (Zfloor r) < r) as Hlt by lra.
    unfold Py.round_half_even. rewrite (Zfloor_opp_frac r Hlt).
    rewrite minus_IZR, opp_IZR, even_opp_pred.
    destruct (Rlt_dec (- r - (- IZR (Zfloor r) - 1)) (1 / 2));
      destruct (Rlt_dec (r - IZR (Zfloor r)) (1 / 2)); try lra;
      destruct (Rlt_dec (1 / 2) (- r - (- IZR (Zfloor r) - 1)));
      destruct (Rlt_dec (1 / 2) (r - IZR (Zfloor r))); try lra; try lia;
      destruct (Z.even (Zfloor r)); cbn [negb]; lia.
Qed.

Lemma round2_opp (a : R) : Py.round (- a) 2 = - Py.round a 2.
Proof.
  rewrite !round2_unfold.
  replace (- a * 100) with (- (a * 100)) by lra.
  rewrite round_half_even_opp, opp_IZR. lra.
Qed.

Lemma round2_45 : Py.round 45 2 = 45.
Proof.
  replace 45 with (IZR 4500 / 100) by lra. apply round2_hundredths.
Qed.

Lemma round2_Rabs (a : R) : Rabs (Py.round a 2) = Py.round (Rabs a) 2.
Proof.
  destruct (Rle_dec 0 a) as [Ha | Ha].
  - rewrite (Rabs_pos_eq a) by assumption.
    apply Rabs_pos_eq. now apply round2_nonneg.
  - rewrite (Rabs_left a) by lra. rewrite round2_opp.
    apply Rabs_left1. apply round2_nonpos. lra.
Qed.

End RoundingSymmetry.

(** ** Which requests are served *)

Section Served.

Lemma v2_pos (v : R) : v <> 0 -> 0 < v ^ 2.
Proof.
  intros Hv. pose proof (pow2_ge_0 v) as H.
  assert (v ^ 2 <> 0) by (intros E; apply (proj1 (sq_zero v)) in E; contradiction).
  lra.
Qed.



End Served.






(** ** Where the path lies *)

Section PathExtent.

(** Every entry of the path is the entry of one of the 50 samples. *)
Lemma path_In (d v : R) (p : PathPoint) :
  In p (path (solution d v)) ->
  exists i : nat,
    (i < 50)%nat /\ p = point_at v (angle d v) (sample_time (flight d v) i).
Proof.
  intros Hp. rewrite path_seq in Hp.
  apply in_map_iff in Hp as [i [Hp Hi]]. apply in_seq in Hi.
  exists i. split; [apply Hi | symmetry; exact Hp].
Qed.

(** Below 45 degrees the squared sine is at most one half. *)
Lemma sin_sq_angle (d v : R) : sin (angle d v) * sin (angle d v) <= 1 / 2.
Proof.
  pose proof (angle_bounds d v) as Hb.
  assert (0 <= cos (2 * angle d v)) as Hc by (apply cos_ge_0; lra).
  rewrite cos_2a_sin in Hc. lra.
Qed.

(** The height never exceeds [v^2 sin^2(theta) / (2 g)], at any time. *)
Lemma y_at_apex (v theta t : R) :
  y_at v theta t <= v ^ 2 * (sin theta * sin theta) / (2 * g).
Proof.
  pose proof g_pos as Hg. unfold y_at.
  assert (v ^ 2 * (sin theta * sin theta) / (2 * g)
          - (v * sin theta * t - 1 / 2 * g * t ^ 2)
          = (g * t - v * sin theta) ^ 2 / (2 * g)) as E by (field; lra).
  assert (0 <= (g * t - v * sin theta) ^ 2 / (2 * g)) as Hpos.
  { apply Rmult_le_pos; [apply pow2_ge_0 |].
    apply Rlt_le, Rinv_0_lt_compat. lra. }
  lra.
Qed.

Lemma y_at_bound (d v t : R) : y_at v (angle d v) t <= v ^ 2 / (4 * g).
Proof.
  pose proof g_pos as Hg. pose proof (sin_sq_angle d v) as Hs.
  pose proof (y_at_apex v (angle d v) t) as Ha.
  pose proof (pow2_ge_0 v) as Hv.
  apply Rle_trans with (1 := Ha).
  assert (v ^ 2 / (4 * g)
          - v ^ 2 * (sin (angle d v) * sin (angle d v)) / (2 * g)
          = v ^ 2 * (1 / 2 - sin (angle d v) * sin (angle d v)) / (2 * g))
    as E by (field; lra).
  assert (0 <= v ^ 2 * (1 / 2 - sin (angle d v) * sin (angle d v)) / (2 * g)).
  { apply Rmult_le_pos; [apply Rmult_le_pos; lra |].
    apply Rlt_le, Rinv_0_lt_compat. lra. }
  lra.
Qed.

End PathExtent.



(** X6.  No point of the path is higher than [v^2 / (4 g)], rounded: the
    apex of the 45-degree shot, the steepest the endpoint ever returns. *)
Theorem X6_height_bound (d v : R) (s : TrajectorySolution) :
  solve d v = Return s ->
  Forall (fun p => 0 <= y p <= Py.round (v ^ 2 / (4 * (981 / 100))) 2) (path s).
Proof.
  intros Hs.
  destruct (solve_Return_inv d v s Hs) as [Hv [Hval ->]].
  pose proof (solution_above_ground d v) as Hlow.
  rewrite Forall_forall in Hlow |- *. intros p Hp.
  split; [now apply Hlow |].
  destruct (path_In d v p Hp) as [i [Hi ->]].
  cbn [y point_at]. apply round2_mono. apply y_at_bound.
Qed.

Lemma X6_height_bound_witness :
  solve 500 120 = Return (solution 500 120) /\
  Forall (fun p => 0 <= y p <= Py.round (120 ^ 2 / (4 * (981 / 100))) 2)
         (path (solution 500 120)).
Proof.
  split; [exact solve_500_120 |].
  exact (X6_height_bound 500 120 (solution 500 120) solve_500_120).
Defined.

(** ** Symmetries *)

Section Symmetries.

Lemma val_opp_v (d v : R) : val d (- v) = val d v.
Proof. unfold val. replace ((- v) ^ 2) with (v ^ 2) by ring. reflexivity. Qed.

Lemma angle_opp_v (d v : R) : angle d (- v) = angle d v.
Proof. unfold angle. now rewrite val_opp_v. Qed.

Lemma flight_opp_v (d v : R) : flight d (- v) = - flight d v.
Proof. unfold flight. rewrite angle_opp_v. unfold Rdiv. ring. Qed.

Lemma sample_time_opp (T : R) (i : nat) :
  sample_time (- T) i = - sample_time T i.
Proof. unfold sample_time. lra. Qed.

Lemma point_at_opp_v (v theta t : R) :
  point_at (- v) theta (- t) = point_at v theta t.
Proof.
  unfold point_at, x_at, y_at. f_equal; f_equal; ring.
Qed.

Lemma path_opp_v (d v : R) :
  path (solution d (- v)) = path (solution d v).
Proof.
  rewrite !path_seq. apply map_ext. intros i.
  now rewrite angle_opp_v, flight_opp_v, sample_time_opp, point_at_opp_v.
Qed.

Lemma val_opp_d (d v : R) : val (- d) v = - val d v.
Proof. unfold val, Rdiv. ring. Qed.

Lemma angle_opp_d (d v : R) : angle (- d) v = - angle d v.
Proof. unfold angle. rewrite val_opp_d, asin_opp. lra. Qed.

Lemma flight_opp_d (d v : R) : flight (- d) v = - flight d v.
Proof.
  unfold flight. rewrite angle_opp_d, sin_neg. unfold Rdiv. ring.
Qed.

Lemma point_at_opp_d (v theta t : R) :
  point_at v (- theta) (- t) = mirror (point_at v theta t).
Proof.
  unfold point_at, mirror, x_at, y_at. cbn [x y].
  rewrite cos_neg, sin_neg, <- round2_opp. f_equal; f_equal; ring.
Qed.

Lemma path_opp_d (d v : R) :
  path (solution (- d) v) = map mirror (path (solution d v)).
Proof.
  rewrite !path_seq, map_map. apply map_ext. intros i.
  now rewrite angle_opp_d, flight_opp_d, sample_time_opp, point_at_opp_d.
Qed.

Lemma degrees_opp (a : R) : Py.degrees (- a) = - Py.degrees a.
Proof. unfold Py.degrees. ring. Qed.

Lemma solution_ext (s s' : TrajectorySolution) :
  path s = path s' -> calculated_angle s = calculated_angle s' ->
  time_of_flight s = time_of_flight s' -> s = s'.
Proof.
  destruct s, s'. cbn [path calculated_angle time_of_flight].
  intros -> -> ->. reflexivity.
Qed.

Lemma calculated_angle_solution (d v : R) :
  calculated_angle (solution d v) = Py.round (Py.degrees (angle d v)) 2.
Proof. reflexivity. Qed.

Lemma time_of_flight_solution (d v : R) :
  time_of_flight (solution d v) = Py.round (flight d v) 2.
Proof. reflexivity. Qed.

End Symmetries.

(** X7.  A negative velocity is not rejected: [-v] is served like [v], with
    the same path and the same angle, and the opposite flight time. *)
Theorem X7_velocity_sign (d v : R) (s : TrajectorySolution) :
  solve d v = Return s ->
  solve d (- v) =
  Return {| path := path s;
            calculated_angle := calculated_angle s;
            time_of_flight := - time_of_flight s |}.
Proof.
  intros Hs.
  destruct (solve_Return_inv d v s Hs) as [Hv [Hval ->]].
  rewrite solve_reachable by (try rewrite val_opp_v; try assumption; lra).
  f_equal. apply solution_ext.
  - exact (path_opp_v d v).
  - rewrite calculated_angle_solution, angle_opp_v. reflexivity.
  - rewrite time_of_flight_solution, flight_opp_v, round2_opp. reflexivity.
Qed.

Lemma X7_velocity_sign_witness :
  solve 500 120 = Return (solution 500 120) /\
  solve 500 (- 120) =
  Return {| path := path (solution 500 120);
            calculated_angle := calculated_angle (solution 500 120);
            time_of_flight := - time_of_flight (solution 500 120) |}.
Proof.
  split; [exact solve_500_120 |].
  exact (X7_velocity_sign 500 120 (solution 500 120) solve_500_120).
Defined.

(** X8.  A target behind the launch point is served with the mirror image
    of the solution for the target at the same distance ahead: every [x]
    negated, every [y] kept, the angle and the flight time negated. *)
Theorem X8_distance_sign (d v : R) (s : TrajectorySolution) :
  solve d v = Return s ->
  solve (- d) v =
  Return {| path := map mirror (path s);
            calculated_angle := - calculated_angle s;
            time_of_flight := - time_of_flight s |}.
Proof.
  intros Hs.
  destruct (solve_Return_inv d v s Hs) as [Hv [Hval ->]].
  rewrite solve_reachable by (try rewrite val_opp_d; try assumption; lra).
  f_equal. apply solution_ext.
  - exact (path_opp_d d v).
  - rewrite calculated_angle_solution, angle_opp_d, degrees_opp, round2_opp.
    reflexivity.
  - rewrite time_of_flight_solution, flight_opp_d, round2_opp. reflexivity.
Qed.

Lemma X8_distance_sign_witness :
  solve 500 120 = Return (solution 500 120) /\
  solve (- 500) 120 =
  Return {| path := map mirror (path (solution 500 120));
            calculated_angle := - calculated_angle (solution 500 120);
            time_of_flight := - time_of_flight (solution 500 120) |}.
Proof.
  split; [exact solve_500_120 |].
  exact (X8_distance_sign 500 120 (solution 500 120) solve_500_120).
Defined.

(** ** How the solution varies with the request *)

Section Variation.

Lemma val_mono (d1 d2 v : R) :
  v <> 0 -> d1 <= d2 -> val d1 v <= val d2 v.
Proof.
  intros Hv Hd. pose proof (v2_pos v Hv) as Hv2. pose proof g_pos as Hg.
  pose proof (val_times_v2 d1 v Hv) as H1.
  pose proof (val_times_v2 d2 v Hv) as H2.
  destruct (Rle_dec (val d1 v) (val d2 v)); [assumption | nra].
Qed.

Lemma asin_mono (a b : R) :
  -1 <= a -> a <= b -> b <= 1 -> Ratan.asin a <= Ratan.asin b.
Proof.
  intros Ha Hab Hb.
  pose proof (asin_bound a) as Ba. pose proof (asin_bound b) as Bb.
  apply sin_incr_0; try lra.
  rewrite !sin_asin by lra. assumption.
Qed.

Lemma angle_mono (d1 d2 v : R) :
  v <> 0 -> -1 <= val d1 v -> val d2 v <= 1 -> d1 <= d2 ->
  angle d1 v <= angle d2 v.
Proof.
  intros Hv H1 H2 Hd. unfold angle.
  pose proof (asin_mono (val d1 v) (val d2 v) H1 (val_mono d1 d2 v Hv Hd) H2).
  lra.
Qed.

Lemma degrees_mono (a b : R) : a <= b -> Py.degrees a <= Py.degrees b.
Proof.
  intros Hab. unfold Py.degrees. pose proof PI_RGT_0 as Hpi.
  assert (0 < 180 / PI) by (apply Rdiv_lt_0_compat; lra).
  now apply Rmult_le_compat_r; [lra |].
Qed.

Lemma flight_mono (d1 d2 v : R) :
  0 < v -> -1 <= val d1 v -> val d2 v <= 1 -> d1 <= d2 ->
  flight d1 v <= flight d2 v.
Proof.
  intros Hv H1 H2 Hd. pose proof g_pos as Hg.
  assert (v <> 0) as Hnz by lra.
  pose proof (angle_mono d1 d2 v Hnz H1 H2 Hd) as Ha.
  pose proof (angle_bounds d1 v) as B1. pose proof (angle_bounds d2 v) as B2.
  pose proof PI_RGT_0 as Hpi.
  assert (sin (angle d1 v) <= sin (angle d2 v)) as Hs
    by (apply sin_incr_1; lra).
  unfold flight. apply Rmult_le_compat_r; [apply Rlt_le, Rinv_0_lt_compat, Hg |].
  nra.
Qed.

(** Degrees of the eighth of a turn. *)
Lemma degrees_PI4 : Py.degrees (PI / 4) = 45.
Proof. unfold Py.degrees. pose proof PI_RGT_0. field. lra. Qed.

Lemma degrees_angle_bounds (d v : R) :
  -45 <= Py.degrees (angle d v) <= 45.
Proof.
  pose proof (angle_bounds d v) as [Hlo Hhi].
  apply degrees_mono in Hlo. apply degrees_mono in Hhi.
  rewrite degrees_PI4 in Hhi.
  replace (- (PI / 4)) with (- (PI / 4) + 0) in Hlo by lra.
  unfold Py.degrees in Hlo at 1.
  assert ((- (PI / 4) + 0) * (180 / PI) = - 45) as E
    by (pose proof PI_RGT_0; field; lra).
  rewrite E in Hlo. lra.
Qed.

Lemma half_sqrt2 : 1 / sqrt 2 = sqrt 2 / 2.
Proof.
  pose proof sqrt2_neq_0 as Hne. pose proof (sqrt_sqrt 2) as Hsq.
  apply Rmult_eq_reg_r with (sqrt 2); [| assumption].
  replace (1 / sqrt 2 * sqrt 2) with 1 by (field; assumption).
  replace (sqrt 2 / 2 * sqrt 2) with (sqrt 2 * sqrt 2 / 2) by lra.
  rewrite Hsq by lra. lra.
Qed.

(** Below 45 degrees the sine is at most [sqrt 2 / 2] in absolute value. *)
Lemma sin_angle_abs (d v : R) : Rabs (sin (angle d v)) <= sqrt 2 / 2.
Proof.
  pose proof (angle_bounds d v) as Hb. pose proof PI_RGT_0 as Hpi.
  rewrite <- half_sqrt2, <- sin_PI4.
  apply Rabs_le. split.
  - rewrite <- sin_neg. apply sin_incr_1; lra.
  - apply sin_incr_1; lra.
Qed.

Lemma flight_abs (d v : R) : Rabs (flight d v) <= sqrt 2 * Rabs v / g.
Proof.
  pose proof g_pos as Hg. pose proof (sin_angle_abs d v) as Hs.
  pose proof (Rabs_pos v) as Hv. pose proof (Rabs_pos (sin (angle d v))) as Hp.
  unfold flight.
  replace (2 * v * sin (angle d v) / g)
    with (2 / g * (v * sin (angle d v))) by (field; lra).
  rewrite Rabs_mult, Rabs_mult.
  rewrite (Rabs_pos_eq (2 / g)) by (apply Rlt_le, Rdiv_lt_0_compat; lra).
  assert (0 < 2 / g) as H2g by (apply Rdiv_lt_0_compat; lra).
  replace (sqrt 2 * Rabs v / g) with (2 / g * (Rabs v * (sqrt 2 / 2)))
    by (field; lra).
  apply Rmult_le_compat_l; [lra |].
  apply Rmult_le_compat_l; assumption.
Qed.


End Variation.

(** X9.  At a given velocity a farther target never gets a flatter shot:
    the returned angle is non-decreasing in the target distance, and for a
    positive velocity so is the returned flight time. *)
Theorem X9_farther_is_steeper (d1 d2 v : R) (s1 s2 : TrajectorySolution) :
  solve d1 v = Return s1 -> solve d2 v = Return s2 -> d1 <= d2 ->
  calculated_angle s1 <= calculated_angle s2 /\
  (0 < v -> time_of_flight s1 <= time_of_flight s2).
Proof.
  intros H1 H2 Hd.
  destruct (solve_Return_inv d1 v s1 H1) as [Hv [Hval1 ->]].
  destruct (solve_Return_inv d2 v s2 H2) as [_ [Hval2 ->]].
  rewrite !calculated_angle_solution, !time_of_flight_solution.
  split.
  - apply round2_mono, degrees_mono, angle_mono; lra.
  - intros Hpos. apply round2_mono, flight_mono; lra.
Qed.

Lemma X9_farther_is_steeper_witness :
  solve 0 120 = Return (solution 0 120) /\
  solve 500 120 = Return (solution 500 120) /\
  0 <= 500 /\
  calculated_angle (solution 0 120) <= calculated_angle (solution 500 120).
Proof.
  assert (0 <= 500) as Hd by lra.
  split; [exact solve_0_120 |]. split; [exact solve_500_120 |].
  split; [exact Hd |].
  exact (proj1 (X9_farther_is_steeper 0 500 120 _ _
                  solve_0_120 solve_500_120 Hd)).
Defined.

(** X10.  Whatever the request, a returned angle lies between -45 and 45
    degrees. *)
Theorem X10_angle_range (d v : R) (s : TrajectorySolution) :
  solve d v = Return s -> -45 <= calculated_angle s <= 45.
Proof.
  intros Hs.
  destruct (solve_Return_inv d v s Hs) as [_ [_ ->]].
  rewrite calculated_angle_solution.
  pose proof (degrees_angle_bounds d v) as [Hlo Hhi].
  apply round2_mono in Hlo. apply round2_mono in Hhi.
  assert (Py.round (-45) 2 = -45) as E.
  { replace (-45) with (IZR (-4500) / 100) by lra. apply round2_hundredths. }
  rewrite E in Hlo. rewrite round2_45 in Hhi. lra.
Qed.

Lemma X10_angle_range_witness :
  solve 500 120 = Return (solution 500 120) /\
  -45 <= calculated_angle (solution 500 120) <= 45.
Proof.
  split; [exact solve_500_120 |].
  exact (X10_angle_range 500 120 (solution 500 120) solve_500_120).
Defined.



(** X12.  The returned flight time is at most [sqrt 2 * |v| / 9.81],
    rounded, in absolute value: the flight time of the 45-degree shot. *)
Theorem X12_flight_time_bound (d v : R) (s : TrajectorySolution) :
  solve d v = Return s ->
  Rabs (time_of_flight s) <= Py.round (sqrt 2 * Rabs v / (981 / 100)) 2.
Proof.
  intros Hs.
  destruct (solve_Return_inv d v s Hs) as [_ [_ ->]].
  rewrite time_of_flight_solution, round2_Rabs.
  apply round2_mono. apply flight_abs.
Qed.

Lemma X12_flight_time_bound_witness :
  solve 500 120 = Return (solution 500 120) /\
  Rabs (time_of_flight (solution 500 120))
  <= Py.round (sqrt 2 * Rabs 120 / (981 / 100)) 2.
Proof.
  split; [exact solve_500_120 |].
  exact (X12_flight_time_bound 500 120 (solution 500 120) solve_500_120).
Defined.





(** X15.  A target ahead, shot at a positive velocity, gets an angle and a
    flight time that are not negative. *)
Theorem X15_forward_shot (d v : R) (s : TrajectorySolution) :
  solve d v = Return s -> 0 <= d -> 0 < v ->
  0 <= calculated_angle s /\ 0 <= time_of_flight s.
Proof.
  intros Hs Hd Hpos.
  destruct (solve_Return_inv d v s Hs) as [Hv [Hval ->]].
  rewrite calculated_angle_solution, time_of_flight_solution.
  destruct (val_sign d v Hv) as [V0 _].
  destruct (angle_sign d v Hval) as [A0 _].
  destruct (flight_sign d v Hv Hval) as [F0 _].
  split; apply round2_nonneg.
  - rewrite <- (Rmult_0_l (180 / PI)). apply degrees_mono. auto.
  - auto.
Qed.

Lemma X15_forward_shot_witness :
  solve 500 120 = Return (solution 500 120) /\ 0 <= 500 /\ 0 < 120 /\
  0 <= time_of_flight (solution 500 120).
Proof.
  assert (0 <= 500) as Hd by lra. assert (0 < 120) as Hv by lra.
  split; [exact solve_500_120 |]. split; [exact Hd |]. split; [exact Hv |].
  exact (proj2 (X15_forward_shot 500 120 (solution 500 120)
                  solve_500_120 Hd Hv)).
Defined.
